(** * FiFoRe: the fish-feeding reminder of [src/main.py]

    A shallow embedding of the MicroPython script that drives the feed
    indicator LED and listens to the feed button.  The module-level
    variables of the script become a record, one iteration of its
    [while True] loop becomes a computation in a small state-and-trace
    monad, and the properties of the controller are proved about that
    computation. *)

From Stdlib Require Import ZArith List String Bool Lia DecimalString.
Import ListNotations.

Local Open Scope Z_scope.

(** ** Settings *)

(** The three module-level settings the loop reads: [feed_delay_hr],
    [feed_delay_min] and [feed_delay_ms]. *)
Record Config : Type := mkConfig {
  feed_delay_hr : Z;
  feed_delay_min : Z;
  feed_delay_ms : Z
}.

(** The module level derives the third from the first two:
    [feed_delay_ms = (((feed_delay_hr * 60) + feed_delay_min) * 60) * 1_000] *)
Definition configure (hr min : Z) : Config :=
  {| feed_delay_hr := hr;
     feed_delay_min := min;
     feed_delay_ms := (((hr * 60) + min) * 60) * 1000 |}.

(** The settings as the script ships them: [feed_delay_hr = 6],
    [feed_delay_min = 0]. *)
Definition shipped_config : Config := configure 6 0.

Definition ms_in_one_second : Z := 1000.
Definition ms_in_one_minute : Z := 1000 * 60.
Definition ms_in_one_hour : Z := 1000 * 60 * 60.

(** ** The tick counter of [utime]

    [ticks_ms] and [ticks_diff] are MicroPython built-ins that the script
    imports from [utime].  They are embedded as MicroPython defines them:
    [ticks_ms] yields the millisecond counter masked to [TICKS_PERIOD],
    and [ticks_diff(end, start)] is
    [((end - start + TICKS_PERIOD / 2) & (TICKS_PERIOD - 1)) - TICKS_PERIOD / 2],
    a signed value in the range [-TICKS_PERIOD/2 .. TICKS_PERIOD/2 - 1].
    [TICKS_PERIOD] is [2^30] on the 32-bit ports, the Pico of the script
    among them. *)
Definition TICKS_PERIOD : Z := Eval cbv in 2 ^ 30.

Definition ticks_diff (ticks1 ticks2 : Z) : Z :=
  Z.land (ticks1 - ticks2 + TICKS_PERIOD / 2) (TICKS_PERIOD - 1)
  - TICKS_PERIOD / 2.

(** What the counter reads [d] milliseconds after it read [t]. *)
Definition ticks_after (t d : Z) : Z := Z.land (t + d) (TICKS_PERIOD - 1).

(** The forward distance on the counter's ring from [last] to [now]: the
    number of milliseconds after which a counter that read [last] reads
    [now] for the first time. *)
Definition forward_duration (now last : Z) : Z := (now - last) mod TICKS_PERIOD.

(** A value that [ticks_ms] can return. *)
Definition is_ticks (t : Z) : Prop := 0 <= t < TICKS_PERIOD.

(** ** Globals and peripherals *)

(** The two module-level variables the loop assigns, and the level of the
    [feed_indicator] pin (GPIO 0, [true] is HIGH). *)
Record State : Type := mkState {
  feeding_required : bool;
  last_feeding_ticks : Z;
  feed_indicator : bool
}.

(** The state once the module level has run: [feeding_required = True],
    [last_feeding_ticks = 0], and
    [Pin(0, Pin.OUT, value=feeding_required)]. *)
Definition initial_state : State :=
  {| feeding_required := true;
     last_feeding_ticks := 0;
     feed_indicator := true |}.

(** What one iteration of the loop can read from the outside: the level of
    [feed_button] and the tick counter.  An iteration reads each of them at
    most once. *)
Record Input : Type := mkInput {
  button : bool;
  ticks : Z
}.

(** What one iteration does to the outside, in order. *)
Inductive event : Type :=
| ButtonRead (level : bool)        (* feed_button.value() *)
| TicksRead (t : Z)                (* ticks_ms() *)
| IndicatorSet (level : bool)      (* feed_indicator.on() / .off() *)
| Print (line : string)            (* print(...) *)
| LightSleep (ms : Z).             (* lightsleep(...) *)

(** ** A state-and-trace monad for the loop body *)

Definition Loop (A : Type) : Type := State -> A * State * list event.

Definition ret {A} (a : A) : Loop A := fun s => (a, s, []).

Definition bind {A B} (m : Loop A) (k : A -> Loop B) : Loop B :=
  fun s =>
    let '(a, s1, t1) := m s in
    let '(b, s2, t2) := k a s1 in
    (b, s2, (t1 ++ t2)%list).

Declare Scope loop_scope.
Delimit Scope loop_scope with loop.
Notation "x <- m ;; k" := (bind m (fun x => k))
  (at level 61, m at next level, right associativity) : loop_scope.
Notation "m ;; k" := (bind m (fun _ => k))
  (at level 61, right associativity) : loop_scope.

Definition emit (e : event) : Loop unit := fun s => (tt, s, [e]).

Definition get_feeding_required : Loop bool :=
  fun s => (feeding_required s, s, []).

Definition get_last_feeding_ticks : Loop Z :=
  fun s => (last_feeding_ticks s, s, []).

Definition set_feeding_required (b : bool) : Loop unit :=
  fun s => (tt, {| feeding_required := b;
                   last_feeding_ticks := last_feeding_ticks s;
                   feed_indicator := feed_indicator s |}, []).

Definition set_last_feeding_ticks (t : Z) : Loop unit :=
  fun s => (tt, {| feeding_required := feeding_required s;
                   last_feeding_ticks := t;
                   feed_indicator := feed_indicator s |}, []).

(** [feed_indicator.on()] and [feed_indicator.off()]. *)
Definition feed_indicator_set (level : bool) : Loop unit :=
  fun s => (tt, {| feeding_required := feeding_required s;
                   last_feeding_ticks := last_feeding_ticks s;
                   feed_indicator := level |}, [IndicatorSet level]).

Definition feed_button_value (i : Input) : Loop bool :=
  fun s => (button i, s, [ButtonRead (button i)]).

Definition ticks_ms (i : Input) : Loop Z :=
  fun s => (ticks i, s, [TicksRead (ticks i)]).

Definition print (line : string) : Loop unit := emit (Print line).

Definition lightsleep (ms : Z) : Loop unit := emit (LightSleep ms).

(** ** The diagnostics of the waiting branch *)

(** [str] of a Python integer. *)
Definition str (z : Z) : string := NilZero.string_of_int (Z.to_int z).

(** [remaining_hours = feed_delay_hr - (elapsed_ms // ms_in_one_hour)] *)
Definition remaining_hours (c : Config) (elapsed_ms : Z) : Z :=
  feed_delay_hr c - (elapsed_ms / ms_in_one_hour).

(** [remaining_mins = feed_delay_min
       - (elapsed_ms - (remaining_hours * ms_in_one_hour)) // ms_in_one_minute
     if feed_delay_min != 0 else 0] *)
Definition remaining_mins (c : Config) (elapsed_ms : Z) : Z :=
  if negb (feed_delay_min c =? 0) then
    feed_delay_min c
    - (elapsed_ms - (remaining_hours c elapsed_ms * ms_in_one_hour))
      / ms_in_one_minute
  else 0.

(** The line [f"{remaining_hours} hour(s) {remaining_mins} minutes(s) until
    next feeding"], from the two numbers. *)
Definition countdown_line (hours mins : Z) : string :=
  (str hours ++ " hour(s) " ++ str mins
   ++ " minutes(s) until next feeding")%string.

(** ** One iteration of the main loop *)

Local Open Scope loop_scope.

Definition loop_body (c : Config) (i : Input) : Loop unit :=
  required <- get_feeding_required ;;
  if required then
    pressed <- feed_button_value i ;;
    if pressed then
      feed_indicator_set false ;;
      now <- ticks_ms i ;;
      set_last_feeding_ticks now ;;
      set_feeding_required false ;;
      print "The fish have been fed"%string
    else ret tt
  else
    current_ticks <- ticks_ms i ;;
    last <- get_last_feeding_ticks ;;
    let elapsed_ms := ticks_diff current_ticks last in
    let hours := remaining_hours c elapsed_ms in
    let mins := remaining_mins c elapsed_ms in
    print (countdown_line hours mins) ;;
    if feed_delay_ms c <=? elapsed_ms then
      set_feeding_required true ;;
      feed_indicator_set true
      (* continue *)
    else
      lightsleep ms_in_one_minute.

Local Close Scope loop_scope.

(** The state after one iteration, and what the iteration did. *)
Definition tick (c : Config) (i : Input) (s : State) : State * list event :=
  let '(_, s', t) := loop_body c i s in (s', t).

Definition state_after (c : Config) (i : Input) (s : State) : State :=
  fst (tick c i s).

Definition trace_of (c : Config) (i : Input) (s : State) : list event :=
  snd (tick c i s).

(** The loop run on a finite prefix of its inputs. *)
Fixpoint run (c : Config) (inputs : list Input) (s : State) : State :=
  match inputs with
  | [] => s
  | i :: rest => run c rest (state_after c i s)
  end.

(** The states the controller can be in: the one after power-on, and the
    one after each further iteration. *)
Inductive reachable (c : Config) : State -> Prop :=
| reachable_init : reachable c initial_state
| reachable_tick (i : Input) (s : State) :
    reachable c s -> reachable c (state_after c i s).

(** The durations of the sleeps an iteration performed. *)
Fixpoint sleeps (t : list event) : list Z :=
  match t with
  | [] => []
  | LightSleep ms :: rest => ms :: sleeps rest
  | _ :: rest => sleeps rest
  end.

(** The button levels an iteration read. *)
Fixpoint button_reads (t : list event) : list bool :=
  match t with
  | [] => []
  | ButtonRead b :: rest => b :: button_reads rest
  | _ :: rest => button_reads rest
  end.

(** The lines an iteration printed. *)
Fixpoint printed (t : list event) : list string :=
  match t with
  | [] => []
  | Print l :: rest => l :: printed rest
  | _ :: rest => printed rest
  end.

(** The elapsed time the waiting branch computes. *)
Definition elapsed_ms (i : Input) (s : State) : Z :=
  ticks_diff (ticks i) (last_feeding_ticks s).

(** The indicator is lit exactly when a feeding is required. *)
Definition consistent (s : State) : Prop :=
  feed_indicator s = feeding_required s.

(** ** Whole runs *)

(** Everything the loop did on a finite prefix of its inputs, in order. *)
Fixpoint run_trace (c : Config) (inputs : list Input) (s : State)
  : list event :=
  match inputs with
  | [] => []
  | i :: rest =>
      (trace_of c i s ++ run_trace c rest (state_after c i s))%list
  end.

(** The levels written to the indicator pin. *)
Fixpoint indicator_writes (t : list event) : list bool :=
  match t with
  | [] => []
  | IndicatorSet b :: rest => b :: indicator_writes rest
  | _ :: rest => indicator_writes rest
  end.

(** [l] is [b; negb b; b; ...]. *)
Fixpoint alternates_from (b : bool) (l : list bool) : bool :=
  match l with
  | [] => true
  | x :: rest => Bool.eqb x b && alternates_from (negb b) rest
  end.

(** The inputs of a run that acknowledge nothing: the button is up. *)
Definition released (i : Input) : Prop := button i = false.

(** The inputs whose counter reading lies less than [d] ms after [t] on
    the counter's ring. *)
Definition within (t d : Z) (i : Input) : Prop :=
  forward_duration (ticks i) t < d.

(** The clock between iterations: each counter reading of [inputs] lies
    less than half a period after the one before it, [prev] being the
    reading before the first. *)
Fixpoint paced_from (prev : Z) (inputs : list Input) : bool :=
  match inputs with
  | [] => true
  | i :: rest =>
      (forward_duration (ticks i) prev <? TICKS_PERIOD / 2)
      && paced_from (ticks i) rest
  end.

Definition paced (inputs : list Input) : bool :=
  match inputs with
  | [] => true
  | i :: rest => paced_from (ticks i) rest
  end.


(** ** Arithmetic of the tick counter *)

Section TickArithmetic.

Local Ltac euclid := Z.to_euclidean_division_equations; lia.

Lemma period_mask : TICKS_PERIOD - 1 = Z.ones 30.
Proof. reflexivity. Qed.

Lemma ticks_diff_mod (a b : Z) :
  ticks_diff a b
  = (a - b + TICKS_PERIOD / 2) mod TICKS_PERIOD - TICKS_PERIOD / 2.
Proof.
  unfold ticks_diff. rewrite period_mask, Z.land_ones by lia. reflexivity.
Qed.

Lemma ticks_after_mod (t d : Z) :
  ticks_after t d = (t + d) mod TICKS_PERIOD.
Proof.
  unfold ticks_after. rewrite period_mask, Z.land_ones by lia. reflexivity.
Qed.

Lemma ticks_after_is_ticks (t d : Z) : is_ticks (ticks_after t d).
Proof.
  unfold is_ticks. rewrite ticks_after_mod. unfold TICKS_PERIOD. euclid.
Qed.

Lemma forward_duration_is_ticks (now last : Z) :
  is_ticks (forward_duration now last).
Proof. unfold is_ticks, forward_duration, TICKS_PERIOD. euclid. Qed.

(** The result of [ticks_diff] is a signed value of the half range. *)
Lemma ticks_diff_range (a b : Z) :
  - (TICKS_PERIOD / 2) <= ticks_diff a b < TICKS_PERIOD / 2.
Proof. rewrite ticks_diff_mod. unfold TICKS_PERIOD. euclid. Qed.

(** In the lower half of the ring the difference is the forward
    distance. *)
Lemma ticks_diff_forward (now last : Z) :
  forward_duration now last < TICKS_PERIOD / 2 ->
  ticks_diff now last = forward_duration now last.
Proof.
  rewrite ticks_diff_mod. unfold forward_duration, TICKS_PERIOD. euclid.
Qed.

(** In the upper half it is the forward distance less one period, which
    is negative. *)
Lemma ticks_diff_backward (now last : Z) :
  TICKS_PERIOD / 2 <= forward_duration now last ->
  ticks_diff now last = forward_duration now last - TICKS_PERIOD.
Proof.
  rewrite ticks_diff_mod. unfold forward_duration, TICKS_PERIOD. euclid.
Qed.

(** Reading the counter [d] milliseconds after [t], with [d] in the
    signed half range, and taking the difference gives [d] back. *)
Lemma ticks_diff_after (t d : Z) :
  - (TICKS_PERIOD / 2) <= d < TICKS_PERIOD / 2 ->
  ticks_diff (ticks_after t d) t = d.
Proof.
  rewrite ticks_diff_mod, ticks_after_mod. unfold TICKS_PERIOD. euclid.
Qed.

Lemma forward_duration_after (t d : Z) :
  0 <= d < TICKS_PERIOD ->
  forward_duration (ticks_after t d) t = d.
Proof.
  unfold forward_duration. rewrite ticks_after_mod.
  unfold TICKS_PERIOD. euclid.
Qed.

End TickArithmetic.

(** ** The four paths through one iteration *)

Ltac unfold_loop :=
  unfold state_after, trace_of, tick, loop_body, bind, get_feeding_required,
    get_last_feeding_ticks, set_feeding_required, set_last_feeding_ticks,
    feed_indicator_set, feed_button_value, ticks_ms, print, lightsleep,
    emit, ret, elapsed_ms in *.

Section Paths.

Variable c : Config.
Variable i : Input.
Variable s : State.

(** A feeding is required and the button is down. *)
Lemma tick_acknowledged :
  feeding_required s = true -> button i = true ->
  tick c i s
  = ({| feeding_required := false;
        last_feeding_ticks := ticks i;
        feed_indicator := false |},
     [ButtonRead true; IndicatorSet false; TicksRead (ticks i);
      Print "The fish have been fed"]).
Proof. intros Hreq Hbtn. unfold_loop. rewrite Hreq, Hbtn. reflexivity. Qed.

(** A feeding is required and the button is up. *)
Lemma tick_pending :
  feeding_required s = true -> button i = false ->
  tick c i s = (s, [ButtonRead false]).
Proof. intros Hreq Hbtn. unfold_loop. rewrite Hreq, Hbtn. reflexivity. Qed.

(** No feeding is required and the delay has passed. *)
Lemma tick_due :
  feeding_required s = false -> feed_delay_ms c <= elapsed_ms i s ->
  tick c i s
  = ({| feeding_required := true;
        last_feeding_ticks := last_feeding_ticks s;
        feed_indicator := true |},
     [TicksRead (ticks i);
      Print (countdown_line (remaining_hours c (elapsed_ms i s))
                            (remaining_mins c (elapsed_ms i s)));
      IndicatorSet true]).
Proof.
  intros Hreq Hdue. apply Z.leb_le in Hdue.
  unfold_loop. rewrite Hreq, Hdue. reflexivity.
Qed.

(** No feeding is required and the delay has not passed. *)
Lemma tick_early :
  feeding_required s = false -> elapsed_ms i s < feed_delay_ms c ->
  tick c i s
  = (s,
     [TicksRead (ticks i);
      Print (countdown_line (remaining_hours c (elapsed_ms i s))
                            (remaining_mins c (elapsed_ms i s)));
      LightSleep ms_in_one_minute]).
Proof.
  intros Hreq Hearly. apply Z.leb_gt in Hearly.
  unfold_loop. rewrite Hreq, Hearly. reflexivity.
Qed.

(** Every iteration takes one of the four paths. *)
Lemma tick_cases :
  (feeding_required s = true /\ button i = true)
  \/ (feeding_required s = true /\ button i = false)
  \/ (feeding_required s = false /\ feed_delay_ms c <= elapsed_ms i s)
  \/ (feeding_required s = false /\ elapsed_ms i s < feed_delay_ms c).
Proof.
  destruct (feeding_required s), (button i); auto;
    destruct (Z.le_gt_cases (feed_delay_ms c) (elapsed_ms i s)); auto.
Qed.

End Paths.

Ltac by_path c i s :=
  destruct (tick_cases c i s) as [[? ?] | [[? ?] | [[? ?] | [? ?]]]];
  [ rewrite (tick_acknowledged c i s) by assumption
  | rewrite (tick_pending c i s) by assumption
  | rewrite (tick_due c i s) by assumption
  | rewrite (tick_early c i s) by assumption ].

(** One iteration keeps the indicator and the flag together. *)
Lemma tick_keeps_consistent (c : Config) (i : Input) (s : State) :
  consistent s -> consistent (state_after c i s).
Proof.
  unfold consistent, state_after. intros Hs.
  by_path c i s; cbn; auto.
Qed.

Lemma run_keeps_consistent (c : Config) (inputs : list Input) :
  forall s, consistent s -> consistent (run c inputs s).
Proof.
  induction inputs as [| i rest IH]; intros s Hs; cbn; auto.
  apply IH, tick_keeps_consistent, Hs.
Qed.

Lemma reachable_consistent (c : Config) (s : State) :
  reachable c s -> consistent s.
Proof.
  induction 1 as [| i s _ IH].
  - reflexivity.
  - apply tick_keeps_consistent, IH.
Qed.

(** Every finite run of the loop ends in a reachable state. *)
Lemma run_reachable (c : Config) (inputs : list Input) :
  forall s, reachable c s -> reachable c (run c inputs s).
Proof.
  induction inputs as [| i rest IH]; intros s Hs; cbn; auto.
  apply IH. constructor. exact Hs.
Qed.

(** ** The indicator invariant *)

(** C1: in every state the controller can reach, the power-on state and the
    state after each iteration included, the indicator pin is HIGH exactly
    when [feeding_required] is true. *)
Theorem indicator_matches_state (c : Config) (s : State) :
  reachable c s ->
  (feed_indicator s = true <-> feeding_required s = true).
Proof.
  intros Hreach. apply reachable_consistent in Hreach.
  unfold consistent in Hreach. rewrite Hreach. reflexivity.
Qed.

Lemma indicator_matches_state_witness :
  reachable shipped_config
    (state_after shipped_config (mkInput true 17) initial_state)
  /\ (feed_indicator
        (state_after shipped_config (mkInput true 17) initial_state) = true
      <-> feeding_required
            (state_after shipped_config (mkInput true 17) initial_state)
          = true).
Proof.
  split.
  - apply reachable_tick, reachable_init.
  - apply (indicator_matches_state shipped_config).
    apply reachable_tick, reachable_init.
Defined.

(** ** The countdown line *)

(** C2: with the delay set to 6 h 30 min, an iteration of the waiting
    branch that finds 6 h 15 min (22 500 000 ms) elapsed prints 0 hours and
    -345 minutes, not 0 hours and 15 minutes: the minutes are taken off the
    whole elapsed time, because the hours subtracted from it are the
    remaining ones and not the elapsed ones. *)
Theorem countdown_at_6h15_of_6h30 (T : Z) (b ind : bool) :
  let c := configure 6 30 in
  let i := {| button := b; ticks := ticks_after T 22500000 |} in
  let s := {| feeding_required := false;
              last_feeding_ticks := T;
              feed_indicator := ind |} in
  feed_delay_ms c = 23400000
  /\ elapsed_ms i s = 22500000
  /\ remaining_hours c (elapsed_ms i s) = 0
  /\ remaining_mins c (elapsed_ms i s) = -345
  /\ printed (trace_of c i s)
     = ["0 hour(s) -345 minutes(s) until next feeding"%string].
Proof.
  intros c i s.
  assert (He : elapsed_ms i s = 22500000).
  { unfold elapsed_ms, i, s; cbn [ticks last_feeding_ticks].
    apply ticks_diff_after. unfold TICKS_PERIOD. cbn. lia. }
  repeat split.
  - exact He.
  - rewrite He. reflexivity.
  - rewrite He. reflexivity.
  - unfold trace_of. rewrite tick_early.
    + rewrite He. reflexivity.
    + reflexivity.
    + rewrite He. reflexivity.
Qed.

(** C7: when the configured delay has no minutes part, the waiting branch
    computes 0 for the remaining minutes whatever time has elapsed, and the
    line it prints carries that 0. *)
Theorem minutes_suppressed_for_whole_hours (c : Config) (i : Input) (s : State) :
  feed_delay_min c = 0 ->
  feeding_required s = false ->
  remaining_mins c (elapsed_ms i s) = 0
  /\ printed (trace_of c i s)
     = [(str (remaining_hours c (elapsed_ms i s))
         ++ " hour(s) 0 minutes(s) until next feeding")%string].
Proof.
  intros Hmin Hwait.
  assert (Hzero : forall e, remaining_mins c e = 0).
  { intros e. unfold remaining_mins. rewrite Hmin. reflexivity. }
  split; [apply Hzero |].
  unfold trace_of.
  destruct (Z.le_gt_cases (feed_delay_ms c) (elapsed_ms i s)) as [Hdue | Hearly].
  - rewrite tick_due by assumption. cbn [snd printed].
    rewrite Hzero. reflexivity.
  - rewrite tick_early by assumption. cbn [snd printed].
    rewrite Hzero. reflexivity.
Qed.

Lemma minutes_suppressed_for_whole_hours_witness :
  feed_delay_min shipped_config = 0
  /\ remaining_mins shipped_config
       (elapsed_ms (mkInput false 5400000) (mkState false 0 false)) = 0
  /\ printed (trace_of shipped_config (mkInput false 5400000)
                (mkState false 0 false))
     = ["5 hour(s) 0 minutes(s) until next feeding"%string].
Proof.
  split; [reflexivity |].
  apply (minutes_suppressed_for_whole_hours shipped_config
           (mkInput false 5400000) (mkState false 0 false));
    reflexivity.
Defined.

(** ** Elapsed time *)

(** C4, as the code has it: whenever the forward distance from [last] to
    [now] on the counter's ring is below half the period, [ticks_diff]
    returns exactly that distance, which is not negative, also when the
    counter wrapped in between; from half the period on it returns the
    distance less one whole period, a negative number. *)
Theorem elapsed_correct_within_half_period (now last : Z) :
  (forward_duration now last < TICKS_PERIOD / 2 ->
   ticks_diff now last = forward_duration now last
   /\ 0 <= ticks_diff now last)
  /\ (TICKS_PERIOD / 2 <= forward_duration now last ->
      ticks_diff now last = forward_duration now last - TICKS_PERIOD
      /\ ticks_diff now last < 0).
Proof.
  pose proof (forward_duration_is_ticks now last) as Hfd.
  unfold is_ticks in Hfd.
  split; intros H.
  - rewrite ticks_diff_forward by exact H. lia.
  - rewrite ticks_diff_backward by exact H. lia.
Qed.

(** The counter wrapped between the two readings: 1000 ms before the end of
    the period, and 500 ms after it. *)
Lemma elapsed_correct_within_half_period_witness :
  forward_duration 500 (TICKS_PERIOD - 1000) < TICKS_PERIOD / 2
  /\ ticks_diff 500 (TICKS_PERIOD - 1000) = 1500
  /\ TICKS_PERIOD / 2 <= forward_duration (TICKS_PERIOD - 1000) 500
  /\ ticks_diff (TICKS_PERIOD - 1000) 500 = -1500.
Proof.
  destruct (elapsed_correct_within_half_period 500 (TICKS_PERIOD - 1000))
    as [Hlow _].
  destruct (elapsed_correct_within_half_period (TICKS_PERIOD - 1000) 500)
    as [_ Hhigh].
  assert (H1 : forward_duration 500 (TICKS_PERIOD - 1000) < TICKS_PERIOD / 2)
    by (vm_compute; reflexivity).
  assert (H2 : TICKS_PERIOD / 2 <= forward_duration (TICKS_PERIOD - 1000) 500)
    by (vm_compute; discriminate).
  destruct (Hlow H1) as [E1 _]. destruct (Hhigh H2) as [E2 _].
  refine (conj H1 (conj _ (conj H2 _))).
  - rewrite E1. reflexivity.
  - rewrite E2. reflexivity.
Defined.

(** C4 as stated fails: both readings are values of the counter, the second
    was taken half a period (2^29 ms) after the first, and the difference
    comes out as -2^29. *)
Lemma elapsed_negative_at_half_period :
  is_ticks 0 /\ is_ticks 536870912
  /\ forward_duration 536870912 0 = 536870912
  /\ ticks_diff 536870912 0 = -536870912.
Proof.
  unfold is_ticks, TICKS_PERIOD.
  repeat split; try lia; reflexivity.
Qed.

(** ** The threshold *)

(** C3, as the code has it: for a delay below half the tick period, an
    iteration that reads the counter [feed_delay_ms - 1] ms after the last
    feeding leaves everything as it is, and one that reads it
    [feed_delay_ms] ms after the last feeding sets [feeding_required] and
    lights the indicator. *)
Theorem threshold_is_inclusive (c : Config) (s : State) (b : bool) :
  feeding_required s = false ->
  0 <= feed_delay_ms c < TICKS_PERIOD / 2 ->
  state_after c
    {| button := b;
       ticks := ticks_after (last_feeding_ticks s) (feed_delay_ms c - 1) |} s
  = s
  /\ state_after c
       {| button := b;
          ticks := ticks_after (last_feeding_ticks s) (feed_delay_ms c) |} s
     = {| feeding_required := true;
          last_feeding_ticks := last_feeding_ticks s;
          feed_indicator := true |}.
Proof.
  intros Hwait Hrange. unfold state_after. split.
  - rewrite tick_early; [reflexivity | exact Hwait |].
    unfold elapsed_ms; cbn [ticks].
    rewrite ticks_diff_after; lia.
  - rewrite tick_due; [reflexivity | exact Hwait |].
    unfold elapsed_ms; cbn [ticks].
    rewrite ticks_diff_after; lia.
Qed.

(** The shipped six hours, with the last feeding 5 s before the counter
    wraps; and a delay of 10 000 ms, with the last feeding at tick 500. *)
Lemma threshold_is_inclusive_witness :
  (0 <= feed_delay_ms shipped_config < TICKS_PERIOD / 2
   /\ state_after shipped_config (mkInput false 21594999)
        (mkState false 1073736824 false)
      = mkState false 1073736824 false
   /\ state_after shipped_config (mkInput false 21595000)
        (mkState false 1073736824 false)
      = mkState true 1073736824 true)
  /\ (0 <= feed_delay_ms (mkConfig 0 0 10000) < TICKS_PERIOD / 2
      /\ state_after (mkConfig 0 0 10000) (mkInput false 10499)
           (mkState false 500 false)
         = mkState false 500 false
      /\ state_after (mkConfig 0 0 10000) (mkInput false 10500)
           (mkState false 500 false)
         = mkState true 500 true).
Proof.
  assert (Hsix : 0 <= feed_delay_ms shipped_config < TICKS_PERIOD / 2)
    by (vm_compute; split; [discriminate | reflexivity]).
  assert (Hten : 0 <= feed_delay_ms (mkConfig 0 0 10000) < TICKS_PERIOD / 2)
    by (vm_compute; split; [discriminate | reflexivity]).
  split.
  - split; [exact Hsix |].
    exact (threshold_is_inclusive shipped_config
             (mkState false 1073736824 false) false eq_refl Hsix).
  - split; [exact Hten |].
    exact (threshold_is_inclusive (mkConfig 0 0 10000)
             (mkState false 500 false) false eq_refl Hten).
Defined.

(** C3 as stated fails: with the delay set to 150 hours (540 000 000 ms, a
    value the counter can read) and the last feeding at tick 0, the
    iteration that reads the counter at [0 + feed_delay_ms] computes a
    negative elapsed time and stays waiting. *)
Lemma threshold_missed_at_150_hours :
  let c := configure 150 0 in
  let s := {| feeding_required := false;
              last_feeding_ticks := 0;
              feed_indicator := false |} in
  let i := {| button := false; ticks := 0 + feed_delay_ms c |} in
  feed_delay_ms c = 540000000
  /\ is_ticks (ticks i)
  /\ elapsed_ms i s = -533741824
  /\ feeding_required (state_after c i s) = false.
Proof.
  cbv zeta. unfold is_ticks, TICKS_PERIOD.
  repeat split; try reflexivity; cbn; lia.
Qed.

(** ** The button *)

(** C5: while no feeding is required the button is not looked at.  An
    iteration with the button down and one with it up, at the same counter
    reading, end in the same state with the same trace; no iteration of the
    waiting branch reads the button, switches the indicator off or moves
    [last_feeding_ticks]. *)
Theorem button_ignored_while_waiting (c : Config) (s : State) :
  feeding_required s = false ->
  (forall now,
      tick c {| button := true; ticks := now |} s
      = tick c {| button := false; ticks := now |} s)
  /\ (forall i,
         button_reads (trace_of c i s) = []
         /\ ~ In (IndicatorSet false) (trace_of c i s)
         /\ last_feeding_ticks (state_after c i s) = last_feeding_ticks s).
Proof.
  intros Hwait. split.
  - intros now.
    destruct (Z.le_gt_cases (feed_delay_ms c)
                (ticks_diff now (last_feeding_ticks s))) as [Hdue | Hearly].
    + rewrite !tick_due by assumption. reflexivity.
    + rewrite !tick_early by assumption. reflexivity.
  - intros i. unfold trace_of, state_after.
    destruct (Z.le_gt_cases (feed_delay_ms c) (elapsed_ms i s))
      as [Hdue | Hearly].
    + rewrite tick_due by assumption. cbn.
      repeat split; try reflexivity.
      intros [H | [H | [H | []]]]; discriminate H.
    + rewrite tick_early by assumption. cbn.
      repeat split; try reflexivity.
      intros [H | [H | [H | []]]]; discriminate H.
Qed.

Lemma button_ignored_while_waiting_witness :
  tick shipped_config (mkInput true 3600000) (mkState false 0 false)
  = tick shipped_config (mkInput false 3600000) (mkState false 0 false)
  /\ button_reads
       (trace_of shipped_config (mkInput true 3600000)
          (mkState false 0 false)) = [].
Proof.
  destruct (button_ignored_while_waiting shipped_config
              (mkState false 0 false) eq_refl) as [Hsame Hunread].
  split.
  - exact (Hsame 3600000).
  - exact (proj1 (Hunread (mkInput true 3600000))).
Defined.

(** ** The light sleep *)

(** C6: the iteration in which the delay is found to have passed sets
    [feeding_required], lights the indicator and does not sleep. *)
Theorem no_sleep_on_trigger (c : Config) (i : Input) (s : State) :
  feeding_required s = false ->
  feed_delay_ms c <= elapsed_ms i s ->
  feeding_required (state_after c i s) = true
  /\ feed_indicator (state_after c i s) = true
  /\ sleeps (trace_of c i s) = [].
Proof.
  intros Hwait Hdue. unfold state_after, trace_of.
  rewrite tick_due by assumption. cbn. auto.
Qed.

Lemma no_sleep_on_trigger_witness :
  feed_delay_ms shipped_config
  <= elapsed_ms (mkInput false 21600000) (mkState false 0 false)
  /\ feeding_required
       (state_after shipped_config (mkInput false 21600000)
          (mkState false 0 false)) = true
  /\ sleeps (trace_of shipped_config (mkInput false 21600000)
               (mkState false 0 false)) = [].
Proof.
  assert (Hdue : feed_delay_ms shipped_config
                 <= elapsed_ms (mkInput false 21600000)
                      (mkState false 0 false))
    by (vm_compute; discriminate).
  destruct (no_sleep_on_trigger shipped_config (mkInput false 21600000)
              (mkState false 0 false) eq_refl Hdue) as [Hreq [_ Hsleep]].
  exact (conj Hdue (conj Hreq Hsleep)).
Defined.

(** ** The waiting branch before the delay has passed *)

(** C9: an iteration of the waiting branch that finds less than the delay
    elapsed leaves [feeding_required], [last_feeding_ticks] and the
    indicator as they were; it reads the counter, prints the countdown line
    and sleeps for [ms_in_one_minute]. *)
Theorem early_tick_changes_nothing (c : Config) (i : Input) (s : State) :
  feeding_required s = false ->
  elapsed_ms i s < feed_delay_ms c ->
  state_after c i s = s
  /\ trace_of c i s
     = [TicksRead (ticks i);
        Print (countdown_line (remaining_hours c (elapsed_ms i s))
                              (remaining_mins c (elapsed_ms i s)));
        LightSleep ms_in_one_minute].
Proof.
  intros Hwait Hearly. unfold state_after, trace_of.
  rewrite tick_early by assumption. split; reflexivity.
Qed.

Lemma early_tick_changes_nothing_witness :
  elapsed_ms (mkInput true 7200000) (mkState false 0 false)
  < feed_delay_ms shipped_config
  /\ state_after shipped_config (mkInput true 7200000) (mkState false 0 false)
     = mkState false 0 false
  /\ trace_of shipped_config (mkInput true 7200000) (mkState false 0 false)
     = [TicksRead 7200000;
        Print "4 hour(s) 0 minutes(s) until next feeding";
        LightSleep 60000].
Proof.
  assert (Hearly : elapsed_ms (mkInput true 7200000) (mkState false 0 false)
                   < feed_delay_ms shipped_config)
    by (vm_compute; reflexivity).
  destruct (early_tick_changes_nothing shipped_config (mkInput true 7200000)
              (mkState false 0 false) eq_refl Hearly) as [Hstate Htrace].
  exact (conj Hearly (conj Hstate Htrace)).
Defined.

(** ** The settings *)

(** X1: for settings that are not negative, the delay is the hours and the
    minutes counted in the script's own millisecond constants; it is zero
    only when both settings are zero, and otherwise it is at least the one
    minute the loop sleeps for. *)
Theorem delay_of_settings (hr min : Z) :
  0 <= hr -> 0 <= min ->
  feed_delay_ms (configure hr min)
  = hr * ms_in_one_hour + min * ms_in_one_minute
  /\ (feed_delay_ms (configure hr min) = 0 <-> hr = 0 /\ min = 0)
  /\ (feed_delay_ms (configure hr min) <> 0 ->
      ms_in_one_minute <= feed_delay_ms (configure hr min)).
Proof.
  intros Hhr Hmin.
  unfold configure, ms_in_one_hour, ms_in_one_minute; cbn [feed_delay_ms].
  split; [lia |]. split; [| lia].
  split; [intros H; split; lia | intros [-> ->]; reflexivity].
Qed.

Lemma delay_of_settings_witness :
  feed_delay_ms (configure 6 30) = 6 * ms_in_one_hour + 30 * ms_in_one_minute
  /\ ms_in_one_minute <= feed_delay_ms (configure 0 1).
Proof.
  destruct (delay_of_settings 6 30) as [Hsum _]; [lia | lia |].
  destruct (delay_of_settings 0 1) as [_ [_ Hmin]]; [lia | lia |].
  split; [exact Hsum |].
  apply Hmin. vm_compute. discriminate.
Defined.

(** ** The countdown numbers *)

(** X8: with a delay of whole hours, the hours of the countdown line are
    the time still to go rounded up to the hour; so while the delay has not
    passed they run from the configured hours down to 1, never 0. *)
Theorem remaining_hours_rounds_up (hr e : Z) :
  ((remaining_hours (configure hr 0) e - 1) * ms_in_one_hour
   < feed_delay_ms (configure hr 0) - e
   <= remaining_hours (configure hr 0) e * ms_in_one_hour)
  /\ (0 <= e < feed_delay_ms (configure hr 0) ->
      1 <= remaining_hours (configure hr 0) e <= hr).
Proof.
  unfold remaining_hours, configure, ms_in_one_hour;
    cbn [feed_delay_ms feed_delay_hr].
  split; [| intros He]; Z.to_euclidean_division_equations; lia.
Qed.

Lemma remaining_hours_rounds_up_witness :
  0 <= 21599999 < feed_delay_ms (configure 6 0)
  /\ 1 <= remaining_hours (configure 6 0) 21599999 <= 6.
Proof.
  assert (He : 0 <= 21599999 < feed_delay_ms (configure 6 0))
    by (vm_compute; split; [discriminate | reflexivity]).
  split; [exact He |].
  exact (proj2 (remaining_hours_rounds_up 6 21599999) He).
Defined.

(** X9: with a minutes part configured, the minutes of the countdown line
    are the configured minutes plus sixty for each hour the line shows,
    less the whole minutes elapsed. *)
Theorem remaining_mins_closed_form (c : Config) (e : Z) :
  feed_delay_min c <> 0 ->
  remaining_mins c e
  = feed_delay_min c + 60 * remaining_hours c e - e / ms_in_one_minute.
Proof.
  intros Hmin. unfold remaining_mins.
  apply Z.eqb_neq in Hmin. rewrite Hmin. cbn [negb].
  unfold remaining_hours, ms_in_one_hour, ms_in_one_minute.
  Z.to_euclidean_division_equations; lia.
Qed.

Lemma remaining_mins_closed_form_witness :
  feed_delay_min (configure 6 30) <> 0
  /\ remaining_mins (configure 6 30) 2700000 = 30 + 60 * 6 - 45.
Proof.
  assert (Hmin : feed_delay_min (configure 6 30) <> 0)
    by (vm_compute; discriminate).
  split; [exact Hmin |].
  exact (remaining_mins_closed_form (configure 6 30) 2700000 Hmin).
Defined.

(** ** Whole runs of the loop *)

Lemma sleeps_app (a b : list event) :
  sleeps (a ++ b) = (sleeps a ++ sleeps b)%list.
Proof.
  induction a as [| e a IH]; [reflexivity |].
  destruct e; cbn; rewrite IH; reflexivity.
Qed.

Lemma indicator_writes_app (a b : list event) :
  indicator_writes (a ++ b) = (indicator_writes a ++ indicator_writes b)%list.
Proof.
  induction a as [| e a IH]; [reflexivity |].
  destruct e; cbn; rewrite IH; reflexivity.
Qed.

Lemma run_app (c : Config) (a b : list Input) :
  forall s, run c (a ++ b) s = run c b (run c a s).
Proof.
  induction a as [| i a IH]; intros s; cbn; [reflexivity | apply IH].
Qed.

Lemma run_trace_app (c : Config) (a b : list Input) :
  forall s,
    run_trace c (a ++ b) s
    = (run_trace c a s ++ run_trace c b (run c a s))%list.
Proof.
  induction a as [| i a IH]; intros s; cbn; [reflexivity |].
  rewrite IH, app_assoc. reflexivity.
Qed.

(** A reading within the delay, the delay itself within half the period,
    is found early. *)
Lemma early_of_within (c : Config) (i : Input) (s : State) :
  feed_delay_ms c <= TICKS_PERIOD / 2 ->
  within (last_feeding_ticks s) (feed_delay_ms c) i ->
  elapsed_ms i s < feed_delay_ms c.
Proof.
  unfold within, elapsed_ms. intros Hhalf Hin.
  rewrite ticks_diff_forward by lia. exact Hin.
Qed.

Lemma run_while_within (c : Config) (s : State) (inputs : list Input) :
  feeding_required s = false ->
  feed_delay_ms c <= TICKS_PERIOD / 2 ->
  Forall (within (last_feeding_ticks s) (feed_delay_ms c)) inputs ->
  run c inputs s = s
  /\ sleeps (run_trace c inputs s)
     = repeat ms_in_one_minute (List.length inputs)
  /\ indicator_writes (run_trace c inputs s) = [].
Proof.
  intros Hwait Hhalf Hall.
  induction Hall as [| i rest Hi _ IH]; [cbn; auto |].
  pose proof (early_of_within c i s Hhalf Hi) as Hearly.
  cbn [run run_trace List.length repeat]. unfold state_after, trace_of.
  rewrite tick_early by assumption. cbn [fst snd].
  destruct IH as [Hrun [Hsleep Hwrite]].
  rewrite sleeps_app, indicator_writes_app, Hrun, Hsleep, Hwrite.
  cbn. auto.
Qed.

(** X3: an unacknowledged reminder stays.  From a state with a feeding
    required, a run in which the button is up at every iteration ends in
    the state it started from, and all it does is read the button: it
    never reads the counter, prints or sleeps. *)
Theorem pending_until_pressed (c : Config) (s : State) (inputs : list Input) :
  feeding_required s = true ->
  Forall released inputs ->
  run c inputs s = s
  /\ run_trace c inputs s = map (fun _ => ButtonRead false) inputs.
Proof.
  intros Hreq Hall.
  induction Hall as [| i rest Hi _ IH]; [cbn; auto |].
  cbn [run run_trace map]. unfold state_after, trace_of.
  rewrite tick_pending by assumption. cbn [fst snd].
  destruct IH as [Hrun Htrace]. rewrite Hrun, Htrace. auto.
Qed.

Lemma pending_until_pressed_witness :
  run shipped_config
    [mkInput false 0; mkInput false 21600000; mkInput false 900000000]
    initial_state
  = initial_state
  /\ run_trace shipped_config
       [mkInput false 0; mkInput false 21600000; mkInput false 900000000]
       initial_state
     = [ButtonRead false; ButtonRead false; ButtonRead false].
Proof.
  apply (pending_until_pressed shipped_config initial_state).
  - reflexivity.
  - repeat constructor.
Defined.

(** X4: the indicator stays off for the whole delay.  From a state with no
    feeding required and a delay of at most half the counter period, a run
    whose every counter reading lies less than the delay after the last
    feeding, across a wrap of the counter as well, ends in the state it
    started from, never writes the indicator, and sleeps one minute in
    each iteration. *)
Theorem waiting_until_delay (c : Config) (s : State) (inputs : list Input) :
  feeding_required s = false ->
  feed_delay_ms c <= TICKS_PERIOD / 2 ->
  Forall (within (last_feeding_ticks s) (feed_delay_ms c)) inputs ->
  run c inputs s = s
  /\ sleeps (run_trace c inputs s)
     = repeat ms_in_one_minute (List.length inputs)
  /\ indicator_writes (run_trace c inputs s) = [].
Proof. apply run_while_within. Qed.

(** Fed 5 s before the counter wraps; woken after one minute, and a
    millisecond short of six hours. *)
Lemma waiting_until_delay_witness :
  Forall (within 1073736824 (feed_delay_ms shipped_config))
    [mkInput false 55000; mkInput true 21594999]
  /\ run shipped_config [mkInput false 55000; mkInput true 21594999]
       (mkState false 1073736824 false)
     = mkState false 1073736824 false
  /\ sleeps (run_trace shipped_config
               [mkInput false 55000; mkInput true 21594999]
               (mkState false 1073736824 false))
     = [60000; 60000].
Proof.
  assert (Hall : Forall (within 1073736824 (feed_delay_ms shipped_config))
                   [mkInput false 55000; mkInput true 21594999])
    by (repeat constructor).
  split; [exact Hall |].
  destruct (waiting_until_delay shipped_config
              (mkState false 1073736824 false)
              [mkInput false 55000; mkInput true 21594999] eq_refl)
    as [Hrun [Hsleep _]].
  - vm_compute. discriminate.
  - exact Hall.
  - exact (conj Hrun Hsleep).
Defined.

(** X5: one whole cycle.  From a state with a feeding required, a press
    read at counter value [T], then any number of iterations that read the
    counter less than the delay after [T], then one that reads it at least
    the delay and less than half a period after [T], leave a feeding
    required again, the indicator lit and [T] as the time of the last
    feeding; the indicator was written twice, off and then on. *)
Theorem feeding_cycle (c : Config) (s : State) (T : Z)
    (waits : list Input) (due : Input) :
  feeding_required s = true ->
  Forall (within T (feed_delay_ms c)) waits ->
  feed_delay_ms c <= forward_duration (ticks due) T < TICKS_PERIOD / 2 ->
  run c ({| button := true; ticks := T |} :: waits ++ [due]) s
  = {| feeding_required := true;
       last_feeding_ticks := T;
       feed_indicator := true |}
  /\ indicator_writes
       (run_trace c ({| button := true; ticks := T |} :: waits ++ [due]) s)
     = [false; true].
Proof.
  intros Hreq Hwaits [Hdue Hhalf].
  set (fed := {| feeding_required := false;
                 last_feeding_ticks := T;
                 feed_indicator := false |}).
  assert (Hack : tick c {| button := true; ticks := T |} s
                 = (fed, [ButtonRead true; IndicatorSet false; TicksRead T;
                          Print "The fish have been fed"]))
    by (rewrite tick_acknowledged by auto; reflexivity).
  destruct (run_while_within c fed waits eq_refl) as [Hrun [_ Hquiet]];
    [lia | exact Hwaits |].
  assert (Hlast : tick c due fed
                  = ({| feeding_required := true;
                        last_feeding_ticks := T;
                        feed_indicator := true |},
                     [TicksRead (ticks due);
                      Print (countdown_line
                               (remaining_hours c (elapsed_ms due fed))
                               (remaining_mins c (elapsed_ms due fed)));
                      IndicatorSet true])).
  { rewrite tick_due; [reflexivity | reflexivity |].
    unfold elapsed_ms, fed; cbn [last_feeding_ticks].
    rewrite ticks_diff_forward by lia. exact Hdue. }
  cbn [run run_trace]. unfold state_after, trace_of.
  rewrite Hack. cbn [fst snd].
  rewrite run_app, run_trace_app, Hrun.
  cbn [run run_trace]. unfold state_after, trace_of.
  rewrite Hlast. cbn [fst snd].
  split; [reflexivity |].
  rewrite !indicator_writes_app, Hquiet. reflexivity.
Qed.

Lemma feeding_cycle_witness :
  Forall (within 1073736824 (feed_delay_ms shipped_config))
    [mkInput true 55000; mkInput false 21594999]
  /\ feed_delay_ms shipped_config
     <= forward_duration 21655000 1073736824 < TICKS_PERIOD / 2
  /\ run shipped_config
       (mkInput true 1073736824
        :: [mkInput true 55000; mkInput false 21594999]
        ++ [mkInput false 21655000])
       initial_state
     = mkState true 1073736824 true.
Proof.
  assert (Hwaits : Forall (within 1073736824 (feed_delay_ms shipped_config))
                     [mkInput true 55000; mkInput false 21594999])
    by (repeat constructor).
  assert (Hdue : feed_delay_ms shipped_config
                 <= forward_duration 21655000 1073736824
                 < TICKS_PERIOD / 2)
    by (vm_compute; split; [discriminate | reflexivity]).
  split; [exact Hwaits |]. split; [exact Hdue |].
  exact (proj1 (feeding_cycle shipped_config initial_state 1073736824
                  [mkInput true 55000; mkInput false 21594999]
                  (mkInput false 21655000) eq_refl Hwaits Hdue)).
Defined.

(** X2: a delay of half the counter period or more is never reached.
    With [feed_delay_ms] at or above [TICKS_PERIOD / 2] (8948 minutes and
    up), once no feeding is required no run of the loop, whatever the
    counter reads, requires one again or writes the indicator. *)
Theorem delay_beyond_half_period_never_triggers
    (c : Config) (s : State) (inputs : list Input) :
  TICKS_PERIOD / 2 <= feed_delay_ms c ->
  feeding_required s = false ->
  run c inputs s = s
  /\ indicator_writes (run_trace c inputs s) = [].
Proof.
  intros Hbig Hwait.
  induction inputs as [| i rest IH]; [cbn; auto |].
  assert (Hearly : elapsed_ms i s < feed_delay_ms c).
  { unfold elapsed_ms.
    pose proof (ticks_diff_range (ticks i) (last_feeding_ticks s)). lia. }
  cbn [run run_trace]. unfold state_after, trace_of.
  rewrite tick_early by assumption. cbn [fst snd].
  destruct IH as [Hrun Hwrite].
  rewrite indicator_writes_app, Hrun, Hwrite. auto.
Qed.

(** 8948 minutes, read at 8948 minutes, at a quarter and at three quarters
    of the period after the feeding. *)
Lemma delay_beyond_half_period_never_triggers_witness :
  TICKS_PERIOD / 2 <= feed_delay_ms (configure 149 8)
  /\ run (configure 149 8)
       [mkInput false 536880000; mkInput false 268435456;
        mkInput false 805306368]
       (mkState false 0 false)
     = mkState false 0 false.
Proof.
  assert (Hbig : TICKS_PERIOD / 2 <= feed_delay_ms (configure 149 8))
    by (vm_compute; discriminate).
  split; [exact Hbig |].
  exact (proj1 (delay_beyond_half_period_never_triggers (configure 149 8)
                  (mkState false 0 false)
                  [mkInput false 536880000; mkInput false 268435456;
                   mkInput false 805306368] Hbig eq_refl)).
Defined.

Lemma writes_alternate (c : Config) (inputs : list Input) :
  forall s,
    consistent s ->
    alternates_from (negb (feed_indicator s))
      (indicator_writes (run_trace c inputs s)) = true.
Proof.
  induction inputs as [| i rest IH]; intros s Hs; [reflexivity |].
  pose proof (IH _ (tick_keeps_consistent c i s Hs)) as Hrest.
  unfold consistent in Hs.
  cbn [run_trace]. rewrite indicator_writes_app.
  unfold state_after, trace_of in *.
  destruct (tick_cases c i s) as [[Hr Hb] | [[Hr Hb] | [[Hr He] | [Hr He]]]].
  - rewrite (tick_acknowledged c i s Hr Hb) in *. rewrite Hs, Hr.
    cbn in *. exact Hrest.
  - rewrite (tick_pending c i s Hr Hb) in *. cbn in *. exact Hrest.
  - rewrite (tick_due c i s Hr He) in *. rewrite Hs, Hr.
    cbn in *. exact Hrest.
  - rewrite (tick_early c i s Hr He) in *. cbn in *. exact Hrest.
Qed.

(** X6: the indicator is written only to change it.  In a run of the loop
    from a state the controller can reach, the levels written to the pin
    alternate, the first being the opposite of the level the pin has; from
    power-on the writes read off, on, off, on and so on. *)
Theorem indicator_writes_alternate
    (c : Config) (s : State) (inputs : list Input) :
  reachable c s ->
  alternates_from (negb (feed_indicator s))
    (indicator_writes (run_trace c inputs s)) = true.
Proof.
  intros Hreach. apply writes_alternate, reachable_consistent with c, Hreach.
Qed.

Lemma indicator_writes_alternate_witness :
  reachable shipped_config initial_state
  /\ indicator_writes
       (run_trace shipped_config
          [mkInput true 5; mkInput true 70; mkInput false 21600005;
           mkInput true 21600006; mkInput false 21600007]
          initial_state)
     = [false; true; false]
  /\ alternates_from false
       (indicator_writes
          (run_trace shipped_config
             [mkInput true 5; mkInput true 70; mkInput false 21600005;
              mkInput true 21600006; mkInput false 21600007]
             initial_state))
     = true.
Proof.
  split; [apply reachable_init |]. split; [reflexivity |].
  apply (indicator_writes_alternate shipped_config initial_state).
  apply reachable_init.
Defined.

(** X7: the time of the last feeding is only ever a counter reading taken
    at a press.  After any run, [last_feeding_ticks] is what it was before
    the run, or the counter value of one of the run's inputs whose button
    was down. *)
Theorem last_feeding_is_a_press_reading (c : Config) (inputs : list Input) :
  forall s,
    last_feeding_ticks (run c inputs s) = last_feeding_ticks s
    \/ exists i,
         In i inputs /\ button i = true
         /\ ticks i = last_feeding_ticks (run c inputs s).
Proof.
  induction inputs as [| i rest IH]; intros s; [left; reflexivity |].
  cbn [run].
  destruct (IH (state_after c i s)) as [Hsame | [j [Hin [Hb Ht]]]].
  - rewrite Hsame. unfold state_after.
    destruct (tick_cases c i s) as [[Hr Hb] | [[Hr Hb] | [[Hr He] | [Hr He]]]].
    + rewrite (tick_acknowledged c i s Hr Hb). cbn.
      right. exists i. cbn. auto.
    + rewrite (tick_pending c i s Hr Hb). left. reflexivity.
    + rewrite (tick_due c i s Hr He). left. reflexivity.
    + rewrite (tick_early c i s Hr He). left. reflexivity.
  - right. exists j. cbn. auto.
Qed.

(** X10: the initial [last_feeding_ticks = 0] is never used.  Started with
    a feeding required, the loop does the same whatever
    [last_feeding_ticks] holds, and once a run contains a press it also
    ends in the same state. *)
Theorem initial_timestamp_never_used
    (c : Config) (inputs : list Input) (t t' : Z) (level : bool) :
  run_trace c inputs (mkState true t level)
  = run_trace c inputs (mkState true t' level)
  /\ (Exists (fun i => button i = true) inputs ->
      run c inputs (mkState true t level)
      = run c inputs (mkState true t' level)).
Proof.
  induction inputs as [| i rest [IHtrace IHrun]].
  - split; [reflexivity | intros H; inversion H].
  - cbn [run run_trace]. unfold state_after, trace_of.
    destruct (button i) eqn:Hb.
    + rewrite !tick_acknowledged by auto. split; reflexivity.
    + rewrite !tick_pending by auto. cbn [fst snd].
      split; [rewrite IHtrace; reflexivity |].
      intros H. inversion H as [? ? Hhead | ? ? Htail]; subst.
      * congruence.
      * exact (IHrun Htail).
Qed.

Lemma initial_timestamp_never_used_witness :
  Exists (fun i => button i = true) [mkInput false 9; mkInput true 40]
  /\ run shipped_config [mkInput false 9; mkInput true 40]
       (mkState true 0 true)
     = run shipped_config [mkInput false 9; mkInput true 40]
         (mkState true 123456 true).
Proof.
  assert (Hpress : Exists (fun i => button i = true)
                     [mkInput false 9; mkInput true 40])
    by (apply Exists_cons_tl, Exists_cons_hd; reflexivity).
  split; [exact Hpress |].
  exact (proj2 (initial_timestamp_never_used shipped_config
                  [mkInput false 9; mkInput true 40] 0 123456 true) Hpress).
Defined.

(** ** Polling the button *)




(** ** A delay of zero *)

Lemma last_cons_default {A} (l : list A) :
  forall x d, last (x :: l) d = last l x.
Proof.
  induction l as [| y l IH]; intros x d; [reflexivity |].
  change (last (x :: y :: l) d) with (last (y :: l) d).
  rewrite !IH. reflexivity.
Qed.

Lemma paced_from_app (pre : list Input) (i : Input) :
  forall prev,
    paced_from prev (pre ++ [i]) = true ->
    paced_from prev pre = true.
Proof.
  induction pre as [| p rest IH]; intros prev H; [reflexivity |].
  cbn in H |- *. apply andb_true_iff in H. destruct H as [Hp Hrest].
  rewrite Hp. cbn. apply (IH _ Hrest).
Qed.

(** With a delay of zero and a paced clock, a state without a feeding
    required is only ever met right after the press that caused it: the
    time of the last feeding is the previous reading of the counter. *)
Lemma zero_delay_waiting_is_fresh (pre : list Input) :
  forall s prev,
    (feeding_required s = false -> last_feeding_ticks s = prev) ->
    paced_from prev pre = true ->
    feeding_required (run (configure 0 0) pre s) = false ->
    last_feeding_ticks (run (configure 0 0) pre s)
    = last (map ticks pre) prev.
Proof.
  induction pre as [| p rest IH]; intros s prev Hfresh Hpaced Hwait.
  - cbn in *. auto.
  - cbn [paced_from] in Hpaced. apply andb_true_iff in Hpaced.
    destruct Hpaced as [Hp Hrest]. apply Z.ltb_lt in Hp.
    cbn [run] in Hwait |- *.
    assert (Hnext : feeding_required (state_after (configure 0 0) p s) = false
                    -> last_feeding_ticks (state_after (configure 0 0) p s)
                       = ticks p).
    { unfold state_after.
      destruct (tick_cases (configure 0 0) p s)
        as [[Hr Hb] | [[Hr Hb] | [[Hr He] | [Hr He]]]].
      - rewrite tick_acknowledged by assumption. reflexivity.
      - rewrite tick_pending by assumption. cbn. congruence.
      - rewrite tick_due by assumption. cbn. discriminate.
      - exfalso. unfold elapsed_ms in He.
        rewrite (Hfresh Hr) in He.
        rewrite ticks_diff_forward in He by exact Hp.
        pose proof (forward_duration_is_ticks (ticks p) prev) as Hfd.
        unfold is_ticks in Hfd. cbn in He. lia. }
    rewrite (IH _ (ticks p) Hnext Hrest Hwait).
    cbn [map]. rewrite last_cons_default. reflexivity.
Qed.

Lemma paced_from_last (pre : list Input) (i : Input) :
  forall prev,
    paced_from prev (pre ++ [i]) = true ->
    forward_duration (ticks i) (last (map ticks pre) prev)
    < TICKS_PERIOD / 2.
Proof.
  induction pre as [| p rest IH]; intros prev H.
  - cbn in H. apply andb_true_iff in H. apply Z.ltb_lt, H.
  - cbn [app paced_from] in H. apply andb_true_iff in H.
    destruct H as [_ Hrest]. specialize (IH _ Hrest).
    cbn [map]. rewrite last_cons_default. exact IH.
Qed.

(** C10: with 0 hours and 0 minutes configured the delay is 0 ms, and in
    every run from power-on whose consecutive counter readings lie less
    than half a period apart, each iteration that starts without a feeding
    required finds the delay passed, sets [feeding_required], lights the
    indicator and does not sleep: the controller never stays waiting
    across an iteration. *)
Theorem zero_delay_never_waits (pre : list Input) (i : Input) :
  let c := configure 0 0 in
  let s := run c pre initial_state in
  paced (pre ++ [i]) = true ->
  feeding_required s = false ->
  feed_delay_ms c = 0
  /\ feed_delay_ms c <= elapsed_ms i s
  /\ feeding_required (state_after c i s) = true
  /\ feed_indicator (state_after c i s) = true
  /\ sleeps (trace_of c i s) = [].
Proof.
  intros c s Hpaced Hwait.
  assert (Hnear : forward_duration (ticks i) (last_feeding_ticks s)
                  < TICKS_PERIOD / 2).
  { destruct pre as [| p rest]; [discriminate Hwait |].
    cbn [app paced] in Hpaced. unfold s in *. cbn [run] in *.
    rewrite (zero_delay_waiting_is_fresh rest _ (ticks p)); auto.
    - apply paced_from_last, Hpaced.
    - unfold state_after.
      destruct (tick_cases c p initial_state)
        as [[Hr Hb] | [[Hr Hb] | [[Hr He] | [Hr He]]]];
        try discriminate Hr.
      + rewrite tick_acknowledged by assumption. reflexivity.
      + rewrite tick_pending by assumption. discriminate.
    - apply paced_from_app with i, Hpaced. }
  assert (Hdue : feed_delay_ms c <= elapsed_ms i s).
  { unfold elapsed_ms. rewrite ticks_diff_forward by exact Hnear.
    pose proof (forward_duration_is_ticks (ticks i) (last_feeding_ticks s))
      as Hfd.
    unfold is_ticks in Hfd. cbn. lia. }
  split; [reflexivity |]. split; [exact Hdue |].
  unfold state_after, trace_of. rewrite tick_due by assumption. cbn. auto.
Qed.

(** Pending at tick 3, fed at tick 17, read again at tick 18. *)
Lemma zero_delay_never_waits_witness :
  paced ([mkInput false 3; mkInput true 17] ++ [mkInput false 18]) = true
  /\ feeding_required
       (run (configure 0 0) [mkInput false 3; mkInput true 17]
          initial_state) = false
  /\ feeding_required
       (state_after (configure 0 0) (mkInput false 18)
          (run (configure 0 0) [mkInput false 3; mkInput true 17]
             initial_state)) = true
  /\ sleeps
       (trace_of (configure 0 0) (mkInput false 18)
          (run (configure 0 0) [mkInput false 3; mkInput true 17]
             initial_state)) = [].
Proof.
  destruct (zero_delay_never_waits [mkInput false 3; mkInput true 17]
              (mkInput false 18) eq_refl eq_refl)
    as [_ [_ [Hset [_ Hsleep]]]].
  exact (conj eq_refl (conj eq_refl (conj Hset Hsleep))).
Defined.
